(** * efiXplorer: efiHexRays.cpp

    A shallow embedding of the helpers of [efiHexRays.cpp] ([OffsetOf],
    [SetHexRaysVariableType], [IsPODArray]) and of the driver
    [applyAllTypesForInterfaces], together with the properties of the
    type-propagation core that are decided by this file.

    The IDA / Hex-Rays SDK is not part of the repository.  Everything the
    code asks of it is collected in the class [Sdk]; the development is
    parametric in an instance, and a small test double ([Fake]) is used to
    run the definitions on concrete inputs. *)

From Stdlib Require Import ZArith Lia Bool.
From stdpp Require Import base option list strings gmap.
From Equations Require Import Equations.

Local Open Scope Z_scope.

(** ** Machine integers *)

Module Machine.

(** [unsigned int]: arithmetic is modulo 2^32. *)
Definition to_uint (z : Z) : Z := z mod 2 ^ 32.

(** Conversion of an [unsigned int] value to [int] (two's complement). *)
Definition to_int (z : Z) : Z :=
  let u := z mod 2 ^ 32 in
  if u <? 2 ^ 31 then u else u - 2 ^ 32.

Definition UINT_MAX : Z := 2 ^ 32 - 1.
Definition INT_MAX : Z := 2 ^ 31 - 1.

End Machine.

(** ** Data of the SDK that the code reads or builds *)

Definition ea_t := Z.

(** [array_type_data_t]: the element type and the number of elements. *)
Record array_type_data_t (T : Type) := ArrayTypeData {
  elem_type : T;
  nelems : Z
}.
Arguments ArrayTypeData {T} _ _.
Arguments elem_type {T} _.
Arguments nelems {T} _.

(** [udt_member_t]: [offset] is the member's offset in bits (a 64-bit
    unsigned value). *)
Record udt_member_t := UdtMember {
  udm_offset : Z;
  udm_name : string
}.

Definition udt_type_data_t := list udt_member_t.

(** [lvar_t]: a local variable; [lv_locator] stands for the [lvar_locator_t]
    base it is copied from into [lvar_saved_info_t::ll]. *)
Record lvar_t := LVar {
  lv_locator : Z;
  lv_name : string
}.

Record lvar_saved_info_t (T : Type) := LvarSavedInfo {
  lsi_ll : Z;
  lsi_type : T
}.
Arguments LvarSavedInfo {T} _ _.
Arguments lsi_ll {T} _.
Arguments lsi_type {T} _.

Record func_t := Func { start_ea : ea_t }.

(** ** The SDK interface *)

Class Sdk := {
  tinfo_t : Type;
  (** the persisted analysis database (user settings of local variables) *)
  idb : Type;
  (** a decompiled function ([cfunc_t]) *)
  cfunc_t : Type;

  get_type_name : tinfo_t -> string;
  get_udt_details : tinfo_t -> option udt_type_data_t;
  (** [find_udt_member(&udm, STRMEM_NAME)] with [udm.name = name]: the index
      of the member, negative when there is none *)
  find_udt_member : tinfo_t -> string -> Z;

  is_array : tinfo_t -> bool;
  get_array_details : tinfo_t -> option (array_type_data_t tinfo_t);
  get_realtype : tinfo_t -> Z;
  is_typeid_last : Z -> bool;
  is_decl_last : tinfo_t -> bool;
  is_ptr : tinfo_t -> bool;
  remove_pointer : tinfo_t -> tinfo_t;

  MLI_TYPE : Z;
  modify_user_lvar_info :
    ea_t -> Z -> lvar_saved_info_t tinfo_t -> idb -> bool * idb;

  get_func : idb -> ea_t -> option func_t;
  decompile : idb -> func_t -> option cfunc_t
}.

(** ** Output window and program state *)

(** One constructor per [msg] call of the file, with the arguments of its
    format string. *)
Inductive message :=
  (** "[E] Could not retrieve udt_type_data_t for %s" *)
  | MsgNoUdt (tname : string)
  (** "[E] Could not find UDT member %s::%s" *)
  | MsgNoMember (tname name : string)
  (** "[E] %a: could not modify lvar type for %s" *)
  | MsgNoLvar (funcEa : ea_t) (vname : string)
  (** "[E] %s: can't get array details, despite being an array" *)
  | MsgNoArrayDetails (tname : string)
  (** "[I] IsPodArray[%d]: elem_type = %s, b1 = %d, b2 = %d" *)
  | MsgPodCheck (iDepth : Z) (tname : string) (b1 b2 : bool).

Definition is_pod_check (m : message) : bool :=
  match m with MsgPodCheck _ _ _ _ => true | _ => false end.

Section Program.

Context `{sdk : Sdk}.

Record St := MkSt {
  console : list message;
  database : idb
}.

(** State passing: every function maps the state to a result and the
    state it leaves. *)
Definition M (A : Type) : Type := St -> A * St.

Definition ret {A} (a : A) : M A := fun s => (a, s).

Definition bind {A B} (c : M A) (k : A -> M B) : M B :=
  fun s => let (a, s') := c s in k a s'.

Definition msg (m : message) : M unit :=
  fun s => (tt, MkSt (console s ++ [m]) (database s)).

Notation "c1 ;; c2" := (bind c1 (fun _ => c2))
  (at level 100, c2 at level 200, right associativity).
Notation "x <-- c1 ;; c2" := (bind c1 (fun x => c2))
  (at level 100, c1 at next level, c2 at level 200, right associativity).

(** *** OffsetOf

    [offset] is the value held by the caller's [*offset] before the call;
    the result carries the value it holds afterwards.  [None] is the
    undefined behaviour of [udt.at(fIdx)] past the end of the vector. *)
Definition OffsetOf (tif : tinfo_t) (name : string) (offset : Z)
  : St -> option (bool * Z * St) :=
  fun s =>
  match get_udt_details tif with
  | None =>
      let (_, s') := msg (MsgNoUdt (get_type_name tif)) s in
      Some (false, offset, s')
  | Some udt =>
      let fIdx := find_udt_member tif name in
      if fIdx <? 0 then
        let (_, s') := msg (MsgNoMember (get_type_name tif) name) s in
        Some (false, offset, s')
      else
        match udt !! Z.to_nat fIdx with
        | Some m => Some (true, Machine.to_uint (Z.shiftr (udm_offset m) 3), s)
        | None => None
        end
  end.

(** *** SetHexRaysVariableType *)

(** The SDK call, run on the database of the current state. *)
Definition modify_lvar (funcEa : ea_t) (flags : Z)
    (lsi : lvar_saved_info_t tinfo_t) : M bool :=
  fun s =>
  let (ok, db) := modify_user_lvar_info funcEa flags lsi (database s) in
  (ok, MkSt (console s) db).

Definition SetHexRaysVariableType (funcEa : ea_t) (ll : lvar_t) (tif : tinfo_t)
  : M bool :=
  let lsi := LvarSavedInfo (lv_locator ll) tif in
  ok <-- modify_lvar funcEa MLI_TYPE lsi ;;
  if negb ok then
    msg (MsgNoLvar funcEa (lv_name ll)) ;;
    ret false
  else ret true.

(** *** IsPODArray *)

(** The two classifications computed at the head of the loop body. *)
Definition pod_b1 (et : tinfo_t) : bool := is_typeid_last (get_realtype et).
Definition pod_b2 (et : tinfo_t) : bool := is_decl_last et.

(** The [while (iDepth > 0)] loop, on the state it runs in. *)
Equations? pod_loop (iDepth : Z) (et : tinfo_t) (s : St) : bool * St
  by wf (Z.to_nat iDepth) lt :=
  pod_loop iDepth et s with Z_lt_dec 0 iDepth => {
    | right _ => ret false s
    | left _ =>
        let b1 := pod_b1 et in
        let b2 := pod_b2 et in
        let s := snd (msg (MsgPodCheck iDepth (get_type_name et) b1 b2) s) in
        if b1 || b2 then ret true s
        else
          if 0 <? iDepth - 1 then
            if is_ptr et then pod_loop (iDepth - 1) (remove_pointer et) s
            else ret false s
          else pod_loop (iDepth - 1) et s
  }.
Proof. all: lia. Qed.

Definition IsPODArray (tif : tinfo_t) (ptrDepth : Z) : M bool :=
  if negb (is_array tif) then ret false
  else
    match get_array_details tif with
    | None => msg (MsgNoArrayDetails (get_type_name tif)) ;; ret false
    | Some atd =>
        let et := elem_type atd in
        let iDepth := Machine.to_int (Machine.to_uint ptrDepth + 1) in
        pod_loop iDepth et
    end.

(** *** The service tables *)

(** [TargetFunctionPointer]: the name of the service, the byte offset of
    its pointer in the table, the number of arguments of a call, and the
    indices of the GUID argument and of the interface argument. *)
Record TargetFunctionPointer := Target {
  tfp_name : string;
  tfp_offset : Z;
  nArgs : Z;
  nGUIDArg : Z;
  nInterfaceArg : Z
}.

(** Descriptors for EFI_BOOT_SERVICES functions *)
Definition BootServicesFunctions : list TargetFunctionPointer :=
  [ Target "HandleProtocol" 0x98 3 1 2;
    Target "LocateProtocol" 0x140 3 0 2;
    Target "OpenProtocol" 0x118 6 1 2 ].

(** Descriptors for _EFI_SMM_SYSTEM_TABLE2 functions *)
Definition SmmServicesFunctions : list TargetFunctionPointer :=
  [ Target "SmmHandleProtocol" 0xb8 3 1 2;
    Target "SmmLocateProtocol" 0xd0 3 0 2 ].

Record ServiceDescriptor := ServiceDesc {
  mName : string;
  mTargets : list TargetFunctionPointer
}.

(** A default-constructed [ServiceDescriptor]. *)
Definition ServiceDescriptor_new : ServiceDescriptor := ServiceDesc "" [].

(** Modelled from the spec: [ServiceDescriptor::Initialize] is declared in
    efiHexRays.h, which is not among the sources.  `Initialize(tableName,
    descriptors[])` populates a ServiceTable from a fixed array: the
    table takes the given name and the first [num] descriptors, in
    order. *)
Definition Initialize (sd : ServiceDescriptor) (name : string)
    (ptrs : list TargetFunctionPointer) (num : nat) : ServiceDescriptor :=
  ServiceDesc name (take num ptrs).

(** Modelled from the spec: [ServiceDescriptorMap::Register] is declared in
    efiHexRays.h.  `Register(table)` inserts the table into the registry,
    keyed by name. *)
Definition Register (m : gmap string ServiceDescriptor) (sd : ServiceDescriptor)
  : gmap string ServiceDescriptor :=
  <[mName sd := sd]> m.

(** One element of the [protocols] vector: a JSON object of which the
    driver reads the members "ea" and "service". *)
Record json := ProtocolUse {
  j_ea : ea_t;
  j_service : string
}.

(** Modelled from the spec: the class [GUIDRetyper] is declared in
    efiHexRays.h.  The RetyperContext holds the service table, the usage
    records and the current code and function address, and is mutable only
    through [SetProtocols], [SetCodeEa] and [SetFuncEa]. *)
Record GUIDRetyper := Retyper {
  mServices : gmap string ServiceDescriptor;
  mProtocols : list json;
  mCodeEa : ea_t;
  mFuncEa : ea_t
}.

Definition BADADDR : ea_t := 2 ^ 64 - 1.

Definition GUIDRetyper_new (m : gmap string ServiceDescriptor) : GUIDRetyper :=
  Retyper m [] BADADDR BADADDR.

Definition SetProtocols (r : GUIDRetyper) (protocols : list json) : GUIDRetyper :=
  Retyper (mServices r) protocols (mCodeEa r) (mFuncEa r).

Definition SetCodeEa (r : GUIDRetyper) (ea : ea_t) : GUIDRetyper :=
  Retyper (mServices r) (mProtocols r) ea (mFuncEa r).

Definition SetFuncEa (r : GUIDRetyper) (ea : ea_t) : GUIDRetyper :=
  Retyper (mServices r) (mProtocols r) (mCodeEa r) ea.

(** *** applyAllTypesForInterfaces *)

(** [GUIDRetyper::apply_to(&cfunc->body, nullptr)]: the traversal of the
    header, which this file only calls.  It reads the retyper and acts on
    the state. *)
Variable apply_to : GUIDRetyper -> cfunc_t -> M unit.

Definition get_func_now (ea : ea_t) : M (option func_t) :=
  fun s => (get_func (database s) ea, s).

Definition decompile_now (f : func_t) : M (option cfunc_t) :=
  fun s => (decompile (database s) f, s).

(** The two retypers, live across the iterations of the loop. *)
Definition retypers : Type := GUIDRetyper * GUIDRetyper.

(** One iteration of [for (auto protocol : protocols)]; [continue] ends the
    iteration with the retypers as they are at that point. *)
Definition handle_protocol (protocol : json) (R : retypers) : M retypers :=
  let '(retyperBs, retyperSmm) := R in
  let code_addr := j_ea protocol in
  let service := j_service protocol in
  fopt <-- get_func_now code_addr ;;
  match fopt with
  | None => ret (retyperBs, retyperSmm)
  | Some f =>
      let retyperBs := SetCodeEa retyperBs code_addr in
      let retyperSmm := SetCodeEa retyperSmm code_addr in
      let retyperBs := SetFuncEa retyperBs (start_ea f) in
      let retyperSmm := SetFuncEa retyperSmm (start_ea f) in
      ocfunc <-- decompile_now f ;;
      match ocfunc with
      | None => ret (retyperBs, retyperSmm)
      | Some cfunc =>
          apply_to retyperBs cfunc ;;
          apply_to retyperSmm cfunc ;;
          ret (retyperBs, retyperSmm)
      end
  end.

Fixpoint handle_all (protocols : list json) (R : retypers) : M retypers :=
  match protocols with
  | [] => ret R
  | protocol :: rest =>
      R' <-- handle_protocol protocol R ;;
      handle_all rest R'
  end.

(** The set-up of the driver, up to the loop. *)
Definition sdBs : ServiceDescriptor :=
  Initialize ServiceDescriptor_new "EFI_BOOT_SERVICES" BootServicesFunctions 3.
Definition sdSmm : ServiceDescriptor :=
  Initialize ServiceDescriptor_new "_EFI_SMM_SYSTEM_TABLE2" SmmServicesFunctions 2.

Definition mBs : gmap string ServiceDescriptor := Register ∅ sdBs.
Definition mSmm : gmap string ServiceDescriptor := Register ∅ sdSmm.

Definition driver_retypers (protocols : list json) : retypers :=
  (SetProtocols (GUIDRetyper_new mBs) protocols,
   SetProtocols (GUIDRetyper_new mSmm) protocols).

Definition applyAllTypesForInterfaces (protocols : list json) : M unit :=
  handle_all protocols (driver_retypers protocols) ;;
  ret tt.

End Program.

Arguments St {sdk}.
Arguments M {sdk} _.

(** ** A test double of the SDK

    A small type language and database, enough to run the functions above
    on concrete inputs. *)

Module Fake.

Inductive ty :=
  (** a base type with its type id ([BT_INT32], ...) *)
  | Basic (name : string) (bt : Z)
  | Typedef (name : string) (target : ty)
  | Struct (name : string) (members : list udt_member_t)
  | Ptr (pointee : ty)
  | Array (elem : ty) (n : Z)
  (** an array type whose definition cannot be resolved *)
  | ArrayRef (name : string)
  (** a synthesized type, with the two type ids reported for it *)
  | Synth (name : string) (realtype decltype : Z).

Definition BT_VOID : Z := 0x01.
Definition BT_INT32 : Z := 0x04.
Definition BT_FLOAT : Z := 0x09.
Definition BT_PTR : Z := 0x0A.
Definition BT_ARRAY : Z := 0x0B.
Definition BT_COMPLEX : Z := 0x0D.
Definition BTF_TYPEDEF : Z := 0x3D.

Fixpoint type_name (t : ty) : string :=
  match t with
  | Basic n _ | Typedef n _ | Struct n _ | ArrayRef n | Synth n _ _ => n
  | Ptr p => type_name p +:+ " *"
  | Array e _ => type_name e +:+ "[]"
  end.

Fixpoint realtype (t : ty) : Z :=
  match t with
  | Basic _ bt => bt
  | Typedef _ target => realtype target
  | Struct _ _ => BT_COMPLEX
  | Ptr _ => BT_PTR
  | Array _ _ | ArrayRef _ => BT_ARRAY
  | Synth _ r _ => r
  end.

Definition decltype (t : ty) : Z :=
  match t with
  | Typedef _ _ => BTF_TYPEDEF
  | Synth _ _ d => d
  | _ => realtype t
  end.

Definition typeid_last (t : Z) : bool := Z.land t 0x0F <=? BT_FLOAT.

Fixpoint pointed (t : ty) : ty :=
  match t with
  | Typedef _ target => pointed target
  | Ptr p => p
  | _ => t
  end.

Fixpoint array_details (t : ty) : option (array_type_data_t ty) :=
  match t with
  | Typedef _ target => array_details target
  | Array e n => Some (ArrayTypeData e n)
  | _ => None
  end.

Fixpoint udt_details (t : ty) : option udt_type_data_t :=
  match t with
  | Typedef _ target => udt_details target
  | Struct _ members => Some members
  | _ => None
  end.

Fixpoint member_index (name : string) (udt : list udt_member_t) (i : Z) : Z :=
  match udt with
  | [] => -1
  | m :: rest =>
      if String.eqb (udm_name m) name then i else member_index name rest (i + 1)
  end.

Definition find_member (t : ty) (name : string) : Z :=
  match udt_details t with
  | Some udt => member_index name udt 0
  | None => -1
  end.

(** A function of the database: its bounds and whether it decompiles. *)
Record func := Fn {
  fn_start : ea_t;
  fn_end : ea_t;
  fn_decompiles : bool
}.

Record db := Db {
  funcs : list func;
  (** user-defined types of local variables: function, locator, type *)
  lvars : list (ea_t * Z * ty)
}.

Definition func_at (d : db) (ea : ea_t) : option func :=
  List.find (fun f => (fn_start f <=? ea) && (ea <? fn_end f)) (funcs d).

(** The store accepts a setting for the variables of a known function. *)
Definition modify (funcEa : ea_t) (flags : Z) (lsi : lvar_saved_info_t ty) (d : db)
  : bool * db :=
  if existsb (fun f => fn_start f =? funcEa) (funcs d) then
    (true, Db (funcs d) ((funcEa, lsi_ll lsi, lsi_type lsi) :: lvars d))
  else (false, d).

#[export] Instance sdk : Sdk := {|
  tinfo_t := ty;
  idb := db;
  cfunc_t := ea_t;
  get_type_name := type_name;
  get_udt_details := udt_details;
  find_udt_member := find_member;
  is_array := fun t => realtype t =? BT_ARRAY;
  get_array_details := array_details;
  get_realtype := realtype;
  is_typeid_last := typeid_last;
  is_decl_last := fun t => typeid_last (decltype t);
  is_ptr := fun t => realtype t =? BT_PTR;
  remove_pointer := pointed;
  MLI_TYPE := 0x02;
  modify_user_lvar_info := modify;
  get_func := fun d ea => (fun f => Func (fn_start f)) <$> func_at d ea;
  decompile := fun d f =>
    match func_at d (start_ea f) with
    | Some fn => if fn_decompiles fn then Some (fn_start fn) else None
    | None => None
    end
|}.

(** A traversal that sets the type of one variable of the current
    function, named after the call site. *)
Definition apply_to (r : GUIDRetyper) (cfunc : ea_t) : M unit :=
  bind (SetHexRaysVariableType (mFuncEa r) (LVar (mCodeEa r) "Interface")
          (Ptr (Basic "VOID" BT_VOID)))
       (fun _ => ret tt).

(** Sample types. *)
Definition int : tinfo_t := Basic "int" BT_INT32.
Definition UINTN : tinfo_t := Typedef "UINTN" (Basic "unsigned __int64" 0x05).
Definition leaf : tinfo_t := Synth "leaf" BT_COMPLEX BT_INT32.
Definition EFI_GUID : tinfo_t :=
  Struct "EFI_GUID"
    [UdtMember 0 "Data1"; UdtMember 32 "Data2";
     UdtMember 48 "Data3"; UdtMember 64 "Data4"].
(** A structure with a member beyond the first 4 GiB. *)
Definition HUGE : tinfo_t :=
  Struct "HUGE" [UdtMember 0 "head"; UdtMember (2 ^ 35) "far"].

(** A database with two functions; the second does not decompile. *)
Definition db0 : db :=
  Db [Fn 0x1000 0x1100 true; Fn 0x2000 0x2080 false] [].

Definition s0 : St := MkSt [] db0.

Definition int_array : tinfo_t := Array int 10.
Definition gBuf : tinfo_t := ArrayRef "gBuf".
Definition ptr_array : tinfo_t := Array (Ptr int) 10.
Definition ptr2_array : tinfo_t := Array (Ptr (Ptr int)) 10.
Definition guid_array : tinfo_t := Array EFI_GUID 4.
(** A structure with a member that does not start on a byte boundary. *)
Definition FLAGS : tinfo_t :=
  Struct "FLAGS" [UdtMember 0 "Valid"; UdtMember 13 "Mode"].

(** A batch of four records: the second lies in no function, the third in
    a function that does not decompile. *)
Definition batch : list json :=
  [ProtocolUse 0x1010 "LocateProtocol"; ProtocolUse 0x5000 "HandleProtocol";
   ProtocolUse 0x2010 "OpenProtocol"; ProtocolUse 0x1020 "LocateProtocol"].

End Fake.

(** ** The classifier as the specification words it

    `isPodArray(type, maxPointerDepth)`: the element type is checked, and up
    to [budget] layers of pointer indirection are stripped, with a check
    after each strip.  These definitions follow the specification and are
    compared with [IsPODArray] below. *)

Section Reference.

Context `{sdk : Sdk}.

(** A scalar of the "real type" classification, or a terminal declared
    type. *)
Definition primitive_like (t : tinfo_t) : bool :=
  is_typeid_last (get_realtype t) || is_decl_last t.

Fixpoint isPodArray_elem (budget : nat) (et : tinfo_t) : bool :=
  if primitive_like et then true
  else
    match budget with
    | O => false
    | S budget' =>
        if is_ptr et then isPodArray_elem budget' (remove_pointer et)
        else false
    end.

(** The types on which a check is made, in order. *)
Fixpoint checked_types (budget : nat) (et : tinfo_t) : list tinfo_t :=
  et ::
  if primitive_like et then []
  else
    match budget with
    | O => []
    | S budget' =>
        if is_ptr et then checked_types budget' (remove_pointer et)
        else []
    end.

(** The lines logged for a run of checks that starts with counter [i]. *)
Fixpoint check_lines (i : Z) (ts : list tinfo_t) : list message :=
  match ts with
  | [] => []
  | t :: rest =>
      MsgPodCheck i (get_type_name t) (pod_b1 t) (pod_b2 t)
      :: check_lines (i - 1) rest
  end.

(** The state after [ms] has been written to the output window. *)
Definition logged (s : St) (ms : list message) : St :=
  MkSt (console s ++ ms) (database s).

(** The number of checks a run has logged. *)
Definition checks_between (s s' : St) : nat :=
  length (filter (fun m => is_pod_check m = true) (drop (length (console s)) (console s'))).

(** A descriptor is well formed when both argument indices are below the
    argument count. *)
Definition wf_target (d : TargetFunctionPointer) : Prop :=
  nGUIDArg d < nArgs d /\ nInterfaceArg d < nArgs d.

Definition catalog_wf (m : gmap string ServiceDescriptor) : Prop :=
  map_Forall (fun _ sd => Forall wf_target (mTargets sd)) m.

(** The "locate" services take no handle argument. *)
Definition is_locate (d : TargetFunctionPointer) : bool :=
  String.eqb (tfp_name d) "LocateProtocol"
  || String.eqb (tfp_name d) "SmmLocateProtocol".

(** Two pairs of retypers with the same tables and usage records; only
    the current code and function address may differ. *)
Definition same_config (R R' : retypers) : Prop :=
  mServices R.1 = mServices R'.1 /\ mProtocols R.1 = mProtocols R'.1 /\
  mServices R.2 = mServices R'.2 /\ mProtocols R.2 = mProtocols R'.2.

(** The two ways in which a usage record fails in state [s]. *)
Definition no_function (p : json) (s : St) : Prop :=
  get_func (database s) (j_ea p) = None.

Definition not_decompiled (p : json) (s : St) : Prop :=
  exists f, get_func (database s) (j_ea p) = Some f
            /\ decompile (database s) f = None.

(** [strip k t]: the type left after [k] layers of pointer indirection have
    been removed from [t]. *)
Fixpoint strip (k : nat) (t : tinfo_t) : tinfo_t :=
  match k with
  | O => t
  | S k' => strip k' (remove_pointer t)
  end.

(** Whether the loop of the driver passes over the record in state [s]. *)
Definition skipped (p : json) (s : St) : bool :=
  match get_func (database s) (j_ea p) with
  | None => true
  | Some f =>
      match decompile (database s) f with
      | None => true
      | Some _ => false
      end
  end.

End Reference.

Section DriverReference.

Context `{sdk : Sdk}.
Variable apply_to : GUIDRetyper -> cfunc_t -> M unit.

(** The records of a batch on which the traversals are run: those that
    resolve to a function and decompile in the state in which the loop
    reaches them. *)
Fixpoint processed (ps : list json) (R : retypers) (s : St) : list json :=
  match ps with
  | [] => []
  | p :: rest =>
      let (R', s') := handle_protocol apply_to p R s in
      if skipped p s then processed rest R' s' else p :: processed rest R' s'
  end.



End DriverReference.

(** ** Properties *)

Section Properties.

Context `{sdk : Sdk}.

Lemma logged_nil (s : St) : logged s [] = s.
Proof. destruct s; unfold logged; simpl. by rewrite app_nil_r. Qed.

Lemma logged_app (s : St) (ms1 ms2 : list message) :
  logged (logged s ms1) ms2 = logged s (ms1 ++ ms2).
Proof. unfold logged; simpl. by rewrite app_assoc. Qed.

Lemma msg_logged (m : message) (s : St) : msg m s = (tt, logged s [m]).
Proof. reflexivity. Qed.

Lemma checks_between_logged (s : St) (ts : list tinfo_t) (i : Z) :
  checks_between s (logged s (check_lines i ts)) = length ts.
Proof.
  unfold checks_between, logged; simpl.
  rewrite drop_app_length.
  revert i; induction ts as [|t ts IH]; intros i; cbn [check_lines]; [done|].
  rewrite filter_cons_True by done. cbn [length]. by rewrite IH.
Qed.

(** *** Machine arithmetic of the loop counter *)

Lemma iDepth_in_range (ptrDepth : Z) :
  0 <= ptrDepth -> ptrDepth + 1 <= Machine.INT_MAX ->
  Machine.to_int (Machine.to_uint ptrDepth + 1) = ptrDepth + 1.
Proof.
  unfold Machine.to_int, Machine.to_uint, Machine.INT_MAX. intros H0 H1.
  rewrite (Z.mod_small ptrDepth) by lia.
  rewrite Z.mod_small by lia.
  destruct (Z.ltb_spec (ptrDepth + 1) (2 ^ 31)); lia.
Qed.

Lemma iDepth_overflow (ptrDepth : Z) :
  Machine.INT_MAX <= ptrDepth <= Machine.UINT_MAX ->
  Machine.to_int (Machine.to_uint ptrDepth + 1) <= 0.
Proof.
  unfold Machine.to_int, Machine.to_uint, Machine.INT_MAX, Machine.UINT_MAX.
  intros H.
  rewrite (Z.mod_small ptrDepth) by lia.
  destruct (Z.eq_dec ptrDepth (2 ^ 32 - 1)) as [->|Hne].
  - reflexivity.
  - rewrite Z.mod_small by lia.
    destruct (Z.ltb_spec (ptrDepth + 1) (2 ^ 31)); lia.
Qed.

(** *** The loop of IsPODArray *)

Lemma pod_loop_nonpos (iDepth : Z) (et : tinfo_t) (s : St) :
  iDepth <= 0 -> pod_loop iDepth et s = (false, s).
Proof.
  intros H. rewrite pod_loop_equation_1.
  destruct (Z_lt_dec 0 iDepth); [lia | reflexivity].
Qed.

Lemma pod_loop_pos (iDepth : Z) (et : tinfo_t) (s : St) :
  0 < iDepth ->
  let s1 :=
    logged s [MsgPodCheck iDepth (get_type_name et) (pod_b1 et) (pod_b2 et)] in
  pod_loop iDepth et s =
  if pod_b1 et || pod_b2 et then (true, s1)
  else if 0 <? iDepth - 1 then
         if is_ptr et then pod_loop (iDepth - 1) (remove_pointer et) s1
         else (false, s1)
       else pod_loop (iDepth - 1) et s1.
Proof.
  intros H s1. rewrite pod_loop_equation_1.
  destruct (Z_lt_dec 0 iDepth); [|lia].
  rewrite pod_loop_clause_1_equation_1. reflexivity.
Qed.

(** The loop started with a positive counter [S n] computes the
    specification's answer with budget [n], and logs one line per type the
    specification checks. *)
Lemma pod_loop_refines (n : nat) (et : tinfo_t) (s : St) :
  pod_loop (Z.of_nat (S n)) et s =
  (isPodArray_elem n et,
   logged s (check_lines (Z.of_nat (S n)) (checked_types n et))).
Proof.
  revert et s. induction n as [|n IH]; intros et s.
  - rewrite pod_loop_pos by lia. simpl.
    unfold primitive_like. fold (pod_b1 et) (pod_b2 et).
    destruct (pod_b1 et || pod_b2 et); [reflexivity|].
    simpl. rewrite pod_loop_nonpos by lia. reflexivity.
  - rewrite pod_loop_pos by lia.
    cbn [isPodArray_elem checked_types check_lines].
    unfold primitive_like. fold (pod_b1 et) (pod_b2 et).
    destruct (pod_b1 et || pod_b2 et); [reflexivity|].
    replace (Z.of_nat (S (S n)) - 1) with (Z.of_nat (S n)) by lia.
    destruct (Z.ltb_spec 0 (Z.of_nat (S n))); [|lia].
    destruct (is_ptr et); [|reflexivity].
    rewrite IH, logged_app. reflexivity.
Qed.

Lemma checked_types_length (n : nat) (et : tinfo_t) :
  (1 <= length (checked_types n et) <= S n)%nat.
Proof.
  revert et; induction n as [|n IH]; intros et; simpl.
  - destruct (primitive_like et); simpl; lia.
  - destruct (primitive_like et); simpl; [lia|].
    destruct (is_ptr et); simpl; [|lia].
    specialize (IH (remove_pointer et)). lia.
Qed.

(** *** IsPODArray *)

Lemma not_array_answer (tif : tinfo_t) (ptrDepth : Z) (s : St) :
  is_array tif = false -> IsPODArray tif ptrDepth s = (false, s).
Proof. intros H. unfold IsPODArray. rewrite H. reflexivity. Qed.

Lemma no_details_answer (tif : tinfo_t) (ptrDepth : Z) (s : St) :
  is_array tif = true ->
  get_array_details tif = None ->
  IsPODArray tif ptrDepth s =
    (false, logged s [MsgNoArrayDetails (get_type_name tif)])
  /\ checks_between s (snd (IsPODArray tif ptrDepth s)) = 0%nat.
Proof.
  intros Ha Hd. unfold IsPODArray. rewrite Ha, Hd. simpl.
  split; [reflexivity|].
  unfold checks_between; simpl. by rewrite drop_app_length.
Qed.

(** C7: for every type that is not an array and every pointer-depth
    argument, IsPODArray returns false without inspecting any element
    type: the state is left as it was (nothing is logged, so no check is
    made), and the equation holds whatever the SDK would answer about array
    details or element types. *)
Theorem IsPODArray_not_array (tif : tinfo_t) (ptrDepth : Z) (s : St) :
  is_array tif = false ->
  IsPODArray tif ptrDepth s = (false, s).
Proof. apply not_array_answer. Qed.

(** C9: when the type is an array but its array details cannot be
    retrieved, IsPODArray reports the failure and returns false; no element
    type is checked. *)
Theorem IsPODArray_no_details (tif : tinfo_t) (ptrDepth : Z) (s : St) :
  is_array tif = true ->
  get_array_details tif = None ->
  IsPODArray tif ptrDepth s =
    (false, logged s [MsgNoArrayDetails (get_type_name tif)])
  /\ checks_between s (snd (IsPODArray tif ptrDepth s)) = 0%nat.
Proof. apply no_details_answer. Qed.

(** While [ptrDepth + 1] fits an [int], IsPODArray is the classifier of
    the specification with budget [ptrDepth], and logs one line per
    check. *)
Lemma IsPODArray_refines (tif : tinfo_t) (atd : array_type_data_t tinfo_t)
    (ptrDepth : Z) (s : St) :
  is_array tif = true ->
  get_array_details tif = Some atd ->
  0 <= ptrDepth -> ptrDepth + 1 <= Machine.INT_MAX ->
  IsPODArray tif ptrDepth s =
    (isPodArray_elem (Z.to_nat ptrDepth) (elem_type atd),
     logged s (check_lines (ptrDepth + 1)
                 (checked_types (Z.to_nat ptrDepth) (elem_type atd)))).
Proof.
  intros Ha Hd H0 H1. unfold IsPODArray. rewrite Ha, Hd. simpl.
  rewrite iDepth_in_range by assumption.
  replace (ptrDepth + 1) with (Z.of_nat (S (Z.to_nat ptrDepth))) by lia.
  apply pod_loop_refines.
Qed.

(** In that range the number of checks is between 1 and [ptrDepth + 1]. *)
Lemma IsPODArray_checks_in_range (tif : tinfo_t)
    (atd : array_type_data_t tinfo_t) (ptrDepth : Z) (s : St) :
  is_array tif = true ->
  get_array_details tif = Some atd ->
  0 <= ptrDepth -> ptrDepth + 1 <= Machine.INT_MAX ->
  (1 <= checks_between s (snd (IsPODArray tif ptrDepth s))
     <= Z.to_nat ptrDepth + 1)%nat.
Proof.
  intros Ha Hd H0 H1.
  rewrite (IsPODArray_refines tif atd) by assumption. simpl.
  rewrite checks_between_logged.
  pose proof (checked_types_length (Z.to_nat ptrDepth) (elem_type atd)). lia.
Qed.

(** With depth 0 exactly one check is made, on the element type itself. *)
Lemma IsPODArray_depth_0 (tif : tinfo_t) (atd : array_type_data_t tinfo_t)
    (s : St) :
  is_array tif = true ->
  get_array_details tif = Some atd ->
  let et := elem_type atd in
  IsPODArray tif 0 s =
    (primitive_like et,
     logged s [MsgPodCheck 1 (get_type_name et) (pod_b1 et) (pod_b2 et)]).
Proof.
  intros Ha Hd et.
  rewrite (IsPODArray_refines tif atd) by (assumption || (unfold Machine.INT_MAX; lia)).
  simpl. fold et. destruct (primitive_like et); reflexivity.
Qed.

(** From [INT_MAX] on, [ptrDepth + 1] is not a positive [int]: the loop
    body is never entered, and the answer is [false] whatever the element
    type is. *)
Lemma IsPODArray_depth_overflow (tif : tinfo_t)
    (atd : array_type_data_t tinfo_t) (ptrDepth : Z) (s : St) :
  is_array tif = true ->
  get_array_details tif = Some atd ->
  Machine.INT_MAX <= ptrDepth <= Machine.UINT_MAX ->
  IsPODArray tif ptrDepth s = (false, s).
Proof.
  intros Ha Hd H. unfold IsPODArray. rewrite Ha, Hd. simpl.
  apply pod_loop_nonpos, iDepth_overflow, H.
Qed.

(** For every depth an [unsigned int] can hold, at most [ptrDepth + 1]
    checks are made. *)
Lemma IsPODArray_checks_le (tif : tinfo_t) (ptrDepth : Z) (s : St) :
  0 <= ptrDepth <= Machine.UINT_MAX ->
  (checks_between s (snd (IsPODArray tif ptrDepth s)) <= Z.to_nat ptrDepth + 1)%nat.
Proof.
  intros H.
  assert (Hs : checks_between s s = 0%nat).
  { unfold checks_between. by rewrite drop_all. }
  destruct (is_array tif) eqn:Ha.
  - destruct (get_array_details tif) as [atd|] eqn:Hd.
    + destruct (Z_le_gt_dec (ptrDepth + 1) Machine.INT_MAX).
      * apply (IsPODArray_checks_in_range tif atd); (assumption || lia).
      * rewrite (IsPODArray_depth_overflow tif atd) by (assumption || lia).
        simpl. lia.
    + destruct (no_details_answer tif ptrDepth s Ha Hd) as [_ ->]. lia.
  - rewrite not_array_answer by assumption. simpl. lia.
Qed.

(** C5: at every iteration of the loop both classifications of the current
    type are computed (and logged), and the check passes when either one
    holds; only when both fail does the loop go on past this type. *)
Theorem pod_check_either_suffices (iDepth : Z) (et : tinfo_t) (s : St) :
  0 < iDepth ->
  let s1 :=
    logged s [MsgPodCheck iDepth (get_type_name et)
                (is_typeid_last (get_realtype et)) (is_decl_last et)] in
  (is_typeid_last (get_realtype et) = true \/ is_decl_last et = true ->
     pod_loop iDepth et s = (true, s1))
  /\ (is_typeid_last (get_realtype et) = false /\ is_decl_last et = false ->
       pod_loop iDepth et s =
         if 0 <? iDepth - 1 then
           if is_ptr et then pod_loop (iDepth - 1) (remove_pointer et) s1
           else (false, s1)
         else (false, s1)).
Proof.
  intros Hpos s1. rewrite pod_loop_pos by assumption.
  unfold pod_b1, pod_b2. fold s1. split.
  - intros [-> | ->]; [reflexivity|].
    rewrite orb_true_r. reflexivity.
  - intros [-> ->]. simpl.
    destruct (Z.ltb_spec 0 (iDepth - 1)).
    + destruct (is_ptr et); reflexivity.
    + apply pod_loop_nonpos. lia.
Qed.

(** *** OffsetOf *)

(** C2, amended: when the layout is retrievable and the member is found,
    OffsetOf succeeds, logs nothing, and stores the member's bit offset
    shifted right by 3 and reduced to the 32 bits of the output; for a bit
    offset below 2^35 that is the offset divided by 8, exactly. *)
Theorem OffsetOf_found (tif : tinfo_t) (name : string) (offset : Z) (s : St)
    (udt : udt_type_data_t) (m : udt_member_t) :
  get_udt_details tif = Some udt ->
  0 <= find_udt_member tif name ->
  udt !! Z.to_nat (find_udt_member tif name) = Some m ->
  OffsetOf tif name offset s =
    Some (true, Z.shiftr (udm_offset m) 3 mod 2 ^ 32, s)
  /\ (0 <= udm_offset m < 2 ^ 35 ->
      OffsetOf tif name offset s = Some (true, udm_offset m / 8, s)).
Proof.
  intros Hu Hf Hm.
  assert (E : OffsetOf tif name offset s =
              Some (true, Z.shiftr (udm_offset m) 3 mod 2 ^ 32, s)).
  { unfold OffsetOf. rewrite Hu.
    destruct (Z.ltb_spec (find_udt_member tif name) 0); [lia|].
    rewrite Hm. reflexivity. }
  split; [exact E|].
  intros Hr. rewrite E, Z.shiftr_div_pow2 by lia.
  change (2 ^ 3) with 8.
  rewrite Z.mod_small; [reflexivity|].
  split; [apply Z.div_pos; lia | apply Z.div_lt_upper_bound; lia].
Qed.

(** C10: a failing call leaves the caller's offset as it was; and OffsetOf
    fails, with one line logged, exactly in the two cases of the layout
    being unavailable and of the member not being found. *)
Theorem OffsetOf_failure_keeps_offset (tif : tinfo_t) (name : string)
    (offset : Z) (s : St) :
  (forall offset' s',
      OffsetOf tif name offset s = Some (false, offset', s') ->
      offset' = offset)
  /\ (get_udt_details tif = None ->
      OffsetOf tif name offset s =
        Some (false, offset, logged s [MsgNoUdt (get_type_name tif)]))
  /\ (is_Some (get_udt_details tif) -> find_udt_member tif name < 0 ->
      OffsetOf tif name offset s =
        Some (false, offset, logged s [MsgNoMember (get_type_name tif) name])).
Proof.
  unfold OffsetOf. repeat split.
  - intros offset' s'.
    destruct (get_udt_details tif) as [udt|]; simpl.
    + destruct (find_udt_member tif name <? 0); simpl; [congruence|].
      destruct (udt !! Z.to_nat (find_udt_member tif name)); congruence.
    + congruence.
  - intros ->. reflexivity.
  - intros [udt ->] Hneg.
    destruct (Z.ltb_spec (find_udt_member tif name) 0); [reflexivity | lia].
Qed.

(** *** SetHexRaysVariableType *)

(** C6: SetHexRaysVariableType returns what the store answers to the
    mutation: it fails, logging the function address and the variable name,
    if and only if the store rejects it, and succeeds silently whenever the
    store accepts it. *)
Theorem SetHexRaysVariableType_iff_store (funcEa : ea_t) (ll : lvar_t)
    (tif : tinfo_t) (s : St) :
  let r := modify_user_lvar_info funcEa MLI_TYPE
             (LvarSavedInfo (lv_locator ll) tif) (database s) in
  SetHexRaysVariableType funcEa ll tif s =
    (fst r,
     MkSt (console s ++ if fst r then [] else [MsgNoLvar funcEa (lv_name ll)])
          (snd r))
  /\ (fst (SetHexRaysVariableType funcEa ll tif s) = false <-> fst r = false).
Proof.
  intros r.
  assert (E : SetHexRaysVariableType funcEa ll tif s =
    (fst r,
     MkSt (console s ++ if fst r then [] else [MsgNoLvar funcEa (lv_name ll)])
          (snd r))).
  { unfold SetHexRaysVariableType, bind, modify_lvar. fold r.
    destruct r as [[] db]; simpl; [|reflexivity].
    unfold ret. by rewrite app_nil_r. }
  split; [exact E|]. by rewrite E.
Qed.

(** *** The service tables *)

Lemma boot_targets_wf : Forall wf_target BootServicesFunctions.
Proof. repeat constructor; simpl; lia. Qed.

Lemma smm_targets_wf : Forall wf_target SmmServicesFunctions.
Proof. repeat constructor; simpl; lia. Qed.

Lemma mBs_wf : catalog_wf mBs.
Proof.
  unfold catalog_wf, mBs, Register.
  apply map_Forall_insert_2; [apply boot_targets_wf | apply map_Forall_empty].
Qed.

Lemma mSmm_wf : catalog_wf mSmm.
Proof.
  unfold catalog_wf, mSmm, Register.
  apply map_Forall_insert_2; [apply smm_targets_wf | apply map_Forall_empty].
Qed.

(** C8: the driver registers two tables, each in a map of its own: the
    boot-services table with HandleProtocol, LocateProtocol and
    OpenProtocol, and the SMM table with SmmHandleProtocol and
    SmmLocateProtocol; the GUID is argument 0 of the two locate services
    and argument 1 of the others. *)
Theorem driver_tables :
  mBs = {[ "EFI_BOOT_SERVICES" :=
             ServiceDesc "EFI_BOOT_SERVICES" BootServicesFunctions ]}
  /\ mSmm = {[ "_EFI_SMM_SYSTEM_TABLE2" :=
                ServiceDesc "_EFI_SMM_SYSTEM_TABLE2" SmmServicesFunctions ]}
  /\ tfp_name <$> BootServicesFunctions =
       ["HandleProtocol"; "LocateProtocol"; "OpenProtocol"]
  /\ tfp_name <$> SmmServicesFunctions =
       ["SmmHandleProtocol"; "SmmLocateProtocol"]
  /\ Forall (fun d => nGUIDArg d = if is_locate d then 0 else 1)
       (BootServicesFunctions ++ SmmServicesFunctions)
  /\ is_locate <$> (BootServicesFunctions ++ SmmServicesFunctions) =
       [false; true; false; false; true].
Proof.
  split; [apply insert_empty|].
  split; [apply insert_empty|].
  do 2 (split; [reflexivity|]).
  split; [|reflexivity].
  repeat constructor.
Qed.

(** *** The driver *)

Variable apply_to : GUIDRetyper -> cfunc_t -> M unit.

Lemma same_config_refl (R : retypers) : same_config R R.
Proof. by repeat split. Qed.

Lemma same_config_trans (R1 R2 R3 : retypers) :
  same_config R1 R2 -> same_config R2 R3 -> same_config R1 R3.
Proof. unfold same_config. intros (?&?&?&?) (?&?&?&?). repeat split; congruence. Qed.

(** An iteration changes at most the current addresses of the retypers. *)
Lemma handle_protocol_config (p : json) (R : retypers) (s : St) :
  same_config R (fst (handle_protocol apply_to p R s)).
Proof.
  destruct R as [rBs rSmm].
  unfold handle_protocol, bind, get_func_now, decompile_now.
  destruct (get_func (database s) (j_ea p)) as [f|]; [|apply same_config_refl].
  destruct (decompile (database s) f) as [cfunc|]; [|by repeat split].
  destruct (apply_to _ cfunc s) as [[] s1].
  destruct (apply_to _ cfunc s1) as [[] s2].
  by repeat split.
Qed.

Lemma handle_all_config (ps : list json) (R : retypers) (s : St) :
  same_config R (fst (handle_all apply_to ps R s)).
Proof.
  revert R s; induction ps as [|p ps IH]; intros R s; simpl.
  - apply same_config_refl.
  - unfold bind.
    pose proof (handle_protocol_config p R s) as Hp.
    destruct (handle_protocol apply_to p R s) as [R1 s1]; simpl in Hp.
    eapply same_config_trans; [exact Hp | apply IH].
Qed.


(** What an iteration does to the state does not depend on the addresses
    left in the retypers by earlier iterations. *)
Lemma handle_protocol_same_config (p : json) (R R' : retypers) (s : St) :
  same_config R R' ->
  snd (handle_protocol apply_to p R s) = snd (handle_protocol apply_to p R' s)
  /\ same_config (fst (handle_protocol apply_to p R s))
                 (fst (handle_protocol apply_to p R' s)).
Proof.
  destruct R as [[m1 q1 c1 f1] [m2 q2 c2 f2]].
  destruct R' as [[m1' q1' c1' f1'] [m2' q2' c2' f2']].
  unfold same_config; simpl. intros (-> & -> & -> & ->).
  unfold handle_protocol, bind, get_func_now, decompile_now.
  destruct (get_func (database s) (j_ea p)) as [f|]; [|by repeat split].
  destruct (decompile (database s) f) as [cfunc|]; [|by repeat split].
  unfold SetFuncEa, SetCodeEa; simpl.
  destruct (apply_to _ cfunc s) as [[] s1].
  destruct (apply_to _ cfunc s1) as [[] s2].
  by repeat split.
Qed.

Lemma handle_all_same_config (ps : list json) (R R' : retypers) (s : St) :
  same_config R R' ->
  snd (handle_all apply_to ps R s) = snd (handle_all apply_to ps R' s).
Proof.
  revert R R' s; induction ps as [|p ps IH]; intros R R' s HR; simpl;
    [reflexivity|].
  unfold bind.
  destruct (handle_protocol_same_config p R R' s HR) as [Hs Hc].
  destruct (handle_protocol apply_to p R s) as [R1 s1].
  destruct (handle_protocol apply_to p R' s) as [R1' s1'].
  simpl in Hs, Hc. subst s1'. by apply IH.
Qed.

(** A record that fails is skipped silently: neither the output window nor
    the database changes. *)
Lemma handle_protocol_skipped (p : json) (R : retypers) (s : St) :
  no_function p s \/ not_decompiled p s ->
  snd (handle_protocol apply_to p R s) = s.
Proof.
  destruct R as [rBs rSmm].
  unfold no_function, not_decompiled, handle_protocol, bind,
    get_func_now, decompile_now.
  intros [-> | (f & -> & ->)]; reflexivity.
Qed.

(** The driver returns nothing; what it leaves is the state after the
    loop. *)
Lemma applyAllTypesForInterfaces_loop (protocols : list json) (s : St) :
  applyAllTypesForInterfaces apply_to protocols s =
  (tt, snd (handle_all apply_to protocols (driver_retypers protocols) s)).
Proof.
  unfold applyAllTypesForInterfaces, bind.
  by destruct (handle_all apply_to protocols (driver_retypers protocols) s).
Qed.






(** C4: every descriptor of the two tables has both argument indices below
    its argument count, and the tables held by the retypers are the
    registered ones at every point of the loop, whatever records have been
    processed. *)
Theorem driver_catalog_wf (protocols ps : list json) (s : St) :
  let R := fst (handle_all apply_to ps (driver_retypers protocols) s) in
  Forall wf_target (BootServicesFunctions ++ SmmServicesFunctions)
  /\ mServices R.1 = mBs /\ mServices R.2 = mSmm
  /\ catalog_wf (mServices R.1) /\ catalog_wf (mServices R.2).
Proof.
  intros R.
  destruct (handle_all_config ps (driver_retypers protocols) s)
    as (H1 & _ & H2 & _).
  fold R in H1, H2. simpl in H1, H2.
  split; [apply Forall_app; split; [apply boot_targets_wf | apply smm_targets_wf]|].
  rewrite <- H1, <- H2.
  repeat split; [apply mBs_wf | apply mSmm_wf].
Qed.

(** *** More on IsPODArray *)

(** The classifier of the specification answers [true] exactly when some
    type within the budget is primitive-like and every type before it is a
    pointer. *)
Lemma isPodArray_elem_true_iff (n : nat) (et : tinfo_t) :
  isPodArray_elem n et = true <->
  exists k, (k <= n)%nat /\ primitive_like (strip k et) = true
            /\ forall j, (j < k)%nat -> is_ptr (strip j et) = true.
Proof.
  revert et; induction n as [|n IH]; intros et; simpl.
  - destruct (primitive_like et) eqn:Hp.
    + split; [intros _|done]. exists 0%nat. repeat split; [lia|done|lia].
    + split; [done|]. intros (k & Hk & Hpk & _).
      assert (k = 0%nat) as -> by lia. simpl in Hpk. congruence.
  - destruct (primitive_like et) eqn:Hp.
    + split; [intros _|done]. exists 0%nat. repeat split; [lia|done|lia].
    + destruct (is_ptr et) eqn:Hptr.
      * rewrite IH. split.
        -- intros (k & Hk & Hpk & Hj). exists (S k). repeat split; [lia|done|].
           intros [|j] Hlt; [done|]. simpl. apply Hj. lia.
        -- intros (k & Hk & Hpk & Hj). destruct k as [|k]; [simpl in Hpk; congruence|].
           exists k. repeat split; [lia|done|].
           intros j Hlt. apply (Hj (S j)). lia.
      * split; [done|]. intros (k & Hk & Hpk & Hj).
        destruct k as [|k]; [simpl in Hpk; congruence|].
        specialize (Hj 0%nat ltac:(lia)). simpl in Hj. congruence.
Qed.

(** A verdict and its log lines are fixed by the type and the depth. *)
Lemma IsPODArray_answer (tif : tinfo_t) (ptrDepth : Z) :
  exists (b : bool) (ms : list message),
    Forall (fun m => is_pod_check m = true \/ b = false) ms
    /\ forall s, IsPODArray tif ptrDepth s = (b, logged s ms).
Proof.
  destruct (is_array tif) eqn:Ha.
  - destruct (get_array_details tif) as [atd|] eqn:Hd.
    + destruct (Z_lt_dec 0 (Machine.to_int (Machine.to_uint ptrDepth + 1)))
        as [Hpos|Hneg].
      * eexists _, _. split; [|intros s; unfold IsPODArray; rewrite Ha, Hd; simpl;
          replace (Machine.to_int (Machine.to_uint ptrDepth + 1)) with
            (Z.of_nat (S (Z.to_nat (Machine.to_int (Machine.to_uint ptrDepth + 1) - 1))))
            by lia;
          apply pod_loop_refines].
        generalize (Z.of_nat (S (Z.to_nat (Machine.to_int (Machine.to_uint ptrDepth + 1) - 1)))).
        induction (checked_types _ _) as [|t ts IHts]; intros i; simpl;
          constructor; [by left | apply IHts].
      * exists false, []. split; [constructor|]. intros s.
        unfold IsPODArray. rewrite Ha, Hd; simpl.
        rewrite pod_loop_nonpos by lia. by rewrite logged_nil.
    + exists false, [MsgNoArrayDetails (get_type_name tif)].
      split; [repeat constructor; by right|]. intros s.
      apply no_details_answer; assumption.
  - exists false, []. split; [constructor|]. intros s.
    rewrite not_array_answer by assumption. by rewrite logged_nil.
Qed.

(** X1: while [ptrDepth + 1] fits an [int], IsPODArray on an array returns
    the verdict of the depth-bounded classifier on the element type, and logs
    one line per type checked, numbered downwards from [ptrDepth + 1]. *)
Theorem IsPODArray_is_classifier (tif : tinfo_t)
    (atd : array_type_data_t tinfo_t) (ptrDepth : Z) (s : St) :
  is_array tif = true ->
  get_array_details tif = Some atd ->
  0 <= ptrDepth -> ptrDepth + 1 <= Machine.INT_MAX ->
  IsPODArray tif ptrDepth s =
    (isPodArray_elem (Z.to_nat ptrDepth) (elem_type atd),
     logged s (check_lines (ptrDepth + 1)
                 (checked_types (Z.to_nat ptrDepth) (elem_type atd))))
  /\ (1 <= length (checked_types (Z.to_nat ptrDepth) (elem_type atd))
        <= Z.to_nat ptrDepth + 1)%nat.
Proof.
  intros Ha Hd H0 H1. split; [by apply IsPODArray_refines|].
  pose proof (checked_types_length (Z.to_nat ptrDepth) (elem_type atd)). lia.
Qed.

(** X2: for every depth an [unsigned int] can hold and every type, at most
    [ptrDepth + 1] checks are logged. *)
Theorem IsPODArray_checks_at_most (tif : tinfo_t) (ptrDepth : Z) (s : St) :
  0 <= ptrDepth <= Machine.UINT_MAX ->
  (checks_between s (snd (IsPODArray tif ptrDepth s)) <= Z.to_nat ptrDepth + 1)%nat.
Proof. apply IsPODArray_checks_le. Qed.

(** X3: at depth 0 exactly one check is made, on the element type of the
    array itself, and its outcome is the verdict; whether the element type is
    a pointer plays no part. *)
Theorem IsPODArray_depth_zero (tif : tinfo_t) (atd : array_type_data_t tinfo_t)
    (s : St) :
  is_array tif = true ->
  get_array_details tif = Some atd ->
  IsPODArray tif 0 s =
    (is_typeid_last (get_realtype (elem_type atd)) || is_decl_last (elem_type atd),
     logged s [MsgPodCheck 1 (get_type_name (elem_type atd))
                 (is_typeid_last (get_realtype (elem_type atd)))
                 (is_decl_last (elem_type atd))]).
Proof. intros Ha Hd. by apply (IsPODArray_depth_0 tif atd). Qed.

(** X4: from [INT_MAX] up to [UINT_MAX] the counter [ptrDepth + 1] is not a
    positive [int]; IsPODArray then answers [false] on every type and logs no
    check. *)
Theorem IsPODArray_large_depth (tif : tinfo_t) (ptrDepth : Z) (s : St) :
  Machine.INT_MAX <= ptrDepth <= Machine.UINT_MAX ->
  fst (IsPODArray tif ptrDepth s) = false
  /\ checks_between s (snd (IsPODArray tif ptrDepth s)) = 0%nat.
Proof.
  intros H.
  destruct (is_array tif) eqn:Ha.
  - destruct (get_array_details tif) as [atd|] eqn:Hd.
    + rewrite (IsPODArray_depth_overflow tif atd) by assumption. simpl.
      split; [done|]. unfold checks_between. by rewrite drop_all.
    + destruct (no_details_answer tif ptrDepth s Ha Hd) as [-> ?]. done.
  - rewrite not_array_answer by assumption. simpl.
    split; [done|]. unfold checks_between. by rewrite drop_all.
Qed.

(** X5: in range, IsPODArray accepts an array exactly when, within
    [ptrDepth] layers of indirection, the element type reaches a
    primitive-like type through pointers only. *)
Theorem IsPODArray_true_iff (tif : tinfo_t) (atd : array_type_data_t tinfo_t)
    (ptrDepth : Z) (s : St) :
  is_array tif = true ->
  get_array_details tif = Some atd ->
  0 <= ptrDepth -> ptrDepth + 1 <= Machine.INT_MAX ->
  fst (IsPODArray tif ptrDepth s) = true <->
  exists k, (k <= Z.to_nat ptrDepth)%nat
            /\ primitive_like (strip k (elem_type atd)) = true
            /\ forall j, (j < k)%nat -> is_ptr (strip j (elem_type atd)) = true.
Proof.
  intros Ha Hd H0 H1. rewrite (IsPODArray_refines tif atd) by assumption.
  simpl. apply isPodArray_elem_true_iff.
Qed.

(** X6: when the element type is [k] pointers deep over a primitive-like
    type, and no type on the way is itself primitive-like, the array is
    accepted exactly at the depths [ptrDepth >= k] (in range). *)
Theorem IsPODArray_depth_threshold (tif : tinfo_t)
    (atd : array_type_data_t tinfo_t) (k : nat) (ptrDepth : Z) (s : St) :
  is_array tif = true ->
  get_array_details tif = Some atd ->
  0 <= ptrDepth -> ptrDepth + 1 <= Machine.INT_MAX ->
  primitive_like (strip k (elem_type atd)) = true ->
  (forall j, (j < k)%nat ->
     primitive_like (strip j (elem_type atd)) = false
     /\ is_ptr (strip j (elem_type atd)) = true) ->
  fst (IsPODArray tif ptrDepth s) = true <-> Z.of_nat k <= ptrDepth.
Proof.
  intros Ha Hd H0 H1 Hk Hbelow.
  rewrite (IsPODArray_refines tif atd) by assumption. simpl.
  rewrite isPodArray_elem_true_iff. split.
  - intros (k' & Hle & Hp & _).
    destruct (le_lt_dec k k') as [Hkk|Hkk]; [lia|].
    destruct (Hbelow k' Hkk) as [Hnp _]. congruence.
  - intros Hle. exists k. repeat split; [lia|done|].
    intros j Hj. by destruct (Hbelow j Hj).
Qed.

(** X7: a larger depth never turns an accepted array into a rejected one, as
    long as both depths are in range. *)
Theorem IsPODArray_depth_monotone (tif : tinfo_t) (d1 d2 : Z) (s : St) :
  0 <= d1 <= d2 -> d2 + 1 <= Machine.INT_MAX ->
  fst (IsPODArray tif d1 s) = true ->
  fst (IsPODArray tif d2 s) = true.
Proof.
  intros Hd Hmax.
  destruct (is_array tif) eqn:Ha;
    [|by rewrite !not_array_answer by assumption].
  destruct (get_array_details tif) as [atd|] eqn:Hdet.
  - rewrite !(IsPODArray_refines tif atd) by (assumption || lia). simpl.
    rewrite !isPodArray_elem_true_iff.
    intros (k & Hk & Hrest). exists k. split; [lia|exact Hrest].
  - by destruct (no_details_answer tif d1 s Ha Hdet) as [-> _].
Qed.

(** X8: IsPODArray is a query: the verdict and the lines it logs depend
    only on the type and the depth; the database is left as it is and the
    output window only grows. *)
Theorem IsPODArray_only_logs (tif : tinfo_t) (ptrDepth : Z) :
  exists (b : bool) (ms : list message),
    forall s, IsPODArray tif ptrDepth s = (b, logged s ms)
              /\ database (snd (IsPODArray tif ptrDepth s)) = database s
              /\ console (snd (IsPODArray tif ptrDepth s)) = console s ++ ms.
Proof.
  destruct (IsPODArray_answer tif ptrDepth) as (b & ms & _ & H).
  exists b, ms. intros s. rewrite H. done.
Qed.

(** X9: an element type that is neither primitive-like nor a pointer is
    rejected after a single check, at every depth in range. *)
Theorem IsPODArray_rejects_non_pointer (tif : tinfo_t)
    (atd : array_type_data_t tinfo_t) (ptrDepth : Z) (s : St) :
  is_array tif = true ->
  get_array_details tif = Some atd ->
  0 <= ptrDepth -> ptrDepth + 1 <= Machine.INT_MAX ->
  primitive_like (elem_type atd) = false ->
  is_ptr (elem_type atd) = false ->
  IsPODArray tif ptrDepth s =
    (false, logged s [MsgPodCheck (ptrDepth + 1) (get_type_name (elem_type atd))
                        false false]).
Proof.
  intros Ha Hd H0 H1 Hp Hptr.
  rewrite (IsPODArray_refines tif atd) by assumption.
  assert (Hb : pod_b1 (elem_type atd) = false /\ pod_b2 (elem_type atd) = false).
  { unfold primitive_like in Hp. by apply orb_false_elim in Hp. }
  destruct Hb as [Hb1 Hb2].
  destruct (Z.to_nat ptrDepth); simpl; rewrite Hp, ?Hptr, Hb1, Hb2; reflexivity.
Qed.

(** *** More on OffsetOf *)

(** X10: OffsetOf never touches the database; a successful call leaves the
    whole state as it was, and a failing call adds exactly one line to the
    output window. *)
Theorem OffsetOf_only_logs (tif : tinfo_t) (name : string) (offset : Z)
    (s : St) (ok : bool) (offset' : Z) (s' : St) :
  OffsetOf tif name offset s = Some (ok, offset', s') ->
  database s' = database s
  /\ (ok = true -> s' = s)
  /\ (ok = false -> exists m, s' = logged s [m]).
Proof.
  unfold OffsetOf.
  destruct (get_udt_details tif) as [udt|]; simpl.
  - destruct (find_udt_member tif name <? 0); simpl.
    + intros [= <- <- <-]. repeat split; [done|]. intros _. by eexists.
    + destruct (udt !! Z.to_nat (find_udt_member tif name)); [|done].
      intros [= <- <- <-]. repeat split; done.
  - intros [= <- <- <-]. repeat split; [done|]. intros _. by eexists.
Qed.

(** X12: the behaviour of OffsetOf is undefined in one case only: the layout
    is retrievable and the index answered for the member is not negative but
    lies past the end of the member vector. *)
Theorem OffsetOf_undefined_iff (tif : tinfo_t) (name : string) (offset : Z)
    (s : St) :
  OffsetOf tif name offset s = None <->
  exists udt, get_udt_details tif = Some udt
              /\ Z.of_nat (length udt) <= find_udt_member tif name.
Proof.
  unfold OffsetOf. split.
  - destruct (get_udt_details tif) as [udt|]; simpl; [|done].
    destruct (Z.ltb_spec (find_udt_member tif name) 0); simpl; [done|].
    destruct (udt !! Z.to_nat (find_udt_member tif name)) eqn:Hl; [done|].
    intros _. exists udt. split; [done|].
    apply lookup_ge_None in Hl. lia.
  - intros (udt & -> & Hge).
    destruct (Z.ltb_spec (find_udt_member tif name) 0); [lia|].
    rewrite (proj2 (lookup_ge_None udt _)); [done | lia].
Qed.

(** X13: a bit offset is rounded down to whole bytes: for a member whose bit
    offset is below 2^35, the byte offset stored is the one of the byte that
    holds the member's first bit. *)
Theorem OffsetOf_rounds_down (tif : tinfo_t) (name : string) (offset : Z)
    (s : St) (udt : udt_type_data_t) (m : udt_member_t) :
  get_udt_details tif = Some udt ->
  0 <= find_udt_member tif name ->
  udt !! Z.to_nat (find_udt_member tif name) = Some m ->
  0 <= udm_offset m < 2 ^ 35 ->
  exists off, OffsetOf tif name offset s = Some (true, off, s)
              /\ 8 * off <= udm_offset m < 8 * off + 8.
Proof.
  intros Hu Hf Hm Hr. exists (udm_offset m / 8). split.
  - unfold OffsetOf. rewrite Hu.
    destruct (Z.ltb_spec (find_udt_member tif name) 0); [lia|].
    rewrite Hm. unfold Machine.to_uint.
    rewrite Z.shiftr_div_pow2 by lia. change (2 ^ 3) with 8.
    rewrite Z.mod_small; [done|].
    split; [apply Z.div_pos; lia | apply Z.div_lt_upper_bound; lia].
  - pose proof (Z.div_mod (udm_offset m) 8 ltac:(lia)).
    pose proof (Z.mod_pos_bound (udm_offset m) 8 ltac:(lia)). lia.
Qed.

(** *** More on the service tables *)

(** X14: within each table no two descriptors share a byte offset or a
    name, and in every descriptor the interface pointer is argument 2, which
    is not the GUID argument. *)
Theorem tables_unambiguous :
  NoDup (tfp_offset <$> BootServicesFunctions)
  /\ NoDup (tfp_offset <$> SmmServicesFunctions)
  /\ NoDup (tfp_name <$> (BootServicesFunctions ++ SmmServicesFunctions))
  /\ Forall (fun d => nInterfaceArg d = 2 /\ nGUIDArg d <> nInterfaceArg d
                      /\ 0 <= nGUIDArg d /\ 0 < tfp_offset d)
       (BootServicesFunctions ++ SmmServicesFunctions).
Proof.
  repeat split.
  - by apply (bool_decide_unpack _); vm_compute.
  - by apply (bool_decide_unpack _); vm_compute.
  - by apply (bool_decide_unpack _); vm_compute.
  - repeat constructor; simpl; lia.
Qed.

(** *** More on the driver *)

(** [skipped] decides the two ways of failing. *)
Lemma skipped_true_iff (p : json) (s : St) :
  skipped p s = true <-> no_function p s \/ not_decompiled p s.
Proof.
  unfold skipped, no_function, not_decompiled.
  destruct (get_func (database s) (j_ea p)) as [f|].
  - destruct (decompile (database s) f) eqn:Hd.
    + split; [done|]. intros [? | (f' & [= <-] & ?)]; congruence.
    + split; [|done]. intros _. right. by exists f.
  - split; [by left | done].
Qed.

Lemma handle_all_all_skipped (ps : list json) (R : retypers) (s : St) :
  Forall (fun p => no_function p s \/ not_decompiled p s) ps ->
  snd (handle_all apply_to ps R s) = s.
Proof.
  revert R; induction ps as [|p ps IH]; intros R Hall; simpl; [done|].
  apply Forall_cons in Hall as [Hp Hps]. unfold bind.
  pose proof (handle_protocol_skipped p R s Hp) as Hs.
  destruct (handle_protocol apply_to p R s) as [R1 s1]. simpl in Hs. subst s1.
  by apply IH.
Qed.

(** X15: a batch in which every record lies in no function, or in a function
    that does not decompile, leaves the state exactly as it was: nothing is
    logged and no traversal is run. *)
Theorem driver_all_skipped (protocols : list json) (s : St) :
  Forall (fun p => no_function p s \/ not_decompiled p s) protocols ->
  applyAllTypesForInterfaces apply_to protocols s = (tt, s).
Proof.
  intros Hall. rewrite applyAllTypesForInterfaces_loop.
  by rewrite handle_all_all_skipped.
Qed.

(** X16: the code and function addresses left in the retypers by earlier
    records are never used: started from two pairs of retypers that differ in
    those addresses only, the loop leaves the same state. *)
Theorem driver_ignores_stale_addresses (ps : list json) (R R' : retypers)
    (s : St) :
  same_config R R' ->
  snd (handle_all apply_to ps R s) = snd (handle_all apply_to ps R' s).
Proof. apply handle_all_same_config. Qed.

(** X17: at every point of the loop both retypers hold the whole vector of
    usage records that the driver was given, not only the records still to
    come. *)
Theorem driver_retypers_keep_protocols (protocols ps : list json) (s : St) :
  let R := fst (handle_all apply_to ps (driver_retypers protocols) s) in
  mProtocols R.1 = protocols /\ mProtocols R.2 = protocols.
Proof.
  intros R.
  destruct (handle_all_config ps (driver_retypers protocols) s)
    as (_ & H1 & _ & H2).
  fold R in H1, H2. simpl in H1, H2. by rewrite <- H1, <- H2.
Qed.

(** X18: the loop does to the state what it does on the records that
    resolve and decompile when they are reached; these are a sublist of the
    batch, in the order of the batch. *)
Theorem driver_runs_processed (ps : list json) (R : retypers) (s : St) :
  snd (handle_all apply_to ps R s) =
    snd (handle_all apply_to (processed apply_to ps R s) R s)
  /\ sublist (processed apply_to ps R s) ps.
Proof.
  revert R s; induction ps as [|p ps IH]; intros R s; simpl; [done|].
  unfold bind.
  pose proof (handle_protocol_config p R s) as Hc.
  destruct (skipped p s) eqn:Hsk.
  - apply skipped_true_iff in Hsk.
    pose proof (handle_protocol_skipped p R s Hsk) as Hs.
    destruct (handle_protocol apply_to p R s) as [R1 s1]. simpl in Hs, Hc. subst s1.
    destruct (IH R1 s) as [IH1 IH2]. split; [|by apply sublist_cons].
    rewrite IH1. apply handle_all_same_config.
    destruct Hc as (?&?&?&?). by repeat split.
  - destruct (handle_protocol apply_to p R s) as [R1 s1] eqn:Hp. simpl.
    unfold bind. rewrite Hp.
    destruct (IH R1 s1) as [IH1 IH2]. split; [done | by apply sublist_skip].
Qed.

End Properties.

(** ** The properties on concrete inputs *)

Section Concrete.

Import Fake.

(** The sample classifications of the specification. *)
Example IsPODArray_samples :
  fst (IsPODArray (Array int 10) 0 s0) = true
  /\ fst (IsPODArray (Array EFI_GUID 10) 0 s0) = false
  /\ fst (IsPODArray (Array (Ptr int) 10) 1 s0) = true
  /\ fst (IsPODArray (Array (Ptr EFI_GUID) 10) 1 s0) = false
  /\ fst (IsPODArray (Array (Ptr (Ptr int)) 10) 1 s0) = false
  /\ fst (IsPODArray (Array (Ptr (Ptr int)) 10) 2 s0) = true.
Proof. vm_compute. repeat split. Qed.

(** C1: with [ptrDepth = UINT_MAX] the counter [ptrDepth + 1] wraps to 0;
    on an array of [int], whose element type is primitive-like and for
    which depth 0 answers [true] after one check, IsPODArray then answers
    [false] without making any check. *)
Theorem IsPODArray_UINT_MAX_no_check :
  primitive_like int = true
  /\ IsPODArray int_array 0 s0 = (true, logged s0 [MsgPodCheck 1 "int" true true])
  /\ Machine.to_int (Machine.to_uint 4294967295 + 1) = 0
  /\ IsPODArray int_array 4294967295 s0 = (false, s0)
  /\ checks_between s0 (snd (IsPODArray int_array 4294967295 s0)) = 0%nat.
Proof.
  split; [reflexivity|].
  split; [apply (IsPODArray_depth_0 int_array (ArrayTypeData int 10)); reflexivity|].
  split; [reflexivity|].
  assert (E : IsPODArray int_array 4294967295 s0 = (false, s0)).
  { apply (IsPODArray_depth_overflow int_array (ArrayTypeData int 10));
      [reflexivity | reflexivity | unfold Machine.INT_MAX, Machine.UINT_MAX; lia]. }
  split; [exact E|]. rewrite E. reflexivity.
Qed.

Lemma IsPODArray_not_array_witness :
  IsPODArray EFI_GUID 2 s0 = (false, s0).
Proof. apply (IsPODArray_not_array EFI_GUID 2 s0). reflexivity. Defined.

Lemma IsPODArray_no_details_witness :
  IsPODArray gBuf 1 s0 =
    (false, logged s0 [MsgNoArrayDetails "gBuf"])
  /\ checks_between s0 (snd (IsPODArray gBuf 1 s0)) = 0%nat.
Proof.
  apply (IsPODArray_no_details gBuf 1 s0); reflexivity.
Defined.

(** [UINTN] passes the first classification only, [leaf] the second
    only. *)
Lemma pod_check_either_suffices_witness :
  (pod_loop 1 UINTN s0 = (true, logged s0 [MsgPodCheck 1 "UINTN" true false]))
  /\ (pod_loop 2 leaf s0 = (true, logged s0 [MsgPodCheck 2 "leaf" false true])).
Proof.
  split.
  - apply (pod_check_either_suffices 1 UINTN s0); [lia | left; reflexivity].
  - apply (pod_check_either_suffices 2 leaf s0); [lia | right; reflexivity].
Defined.

Lemma OffsetOf_found_witness :
  OffsetOf EFI_GUID "Data3" 77 s0 = Some (true, 6, s0).
Proof.
  apply (OffsetOf_found EFI_GUID "Data3" 77 s0
           [UdtMember 0 "Data1"; UdtMember 32 "Data2";
            UdtMember 48 "Data3"; UdtMember 64 "Data4"]
           (UdtMember 48 "Data3"));
    [reflexivity | vm_compute; discriminate | reflexivity | simpl; lia].
Defined.

(** C2 as stated fails on [HUGE]: the member "far" is found at bit offset
    2^35, whose byte offset 2^32 does not fit the 32-bit output; OffsetOf
    stores 0. *)
Lemma OffsetOf_exact_counterexample :
  ~ (forall udt m,
        get_udt_details HUGE = Some udt ->
        0 <= find_udt_member HUGE "far" ->
        udt !! Z.to_nat (find_udt_member HUGE "far") = Some m ->
        OffsetOf HUGE "far" 77 s0 = Some (true, Z.shiftr (udm_offset m) 3, s0)).
Proof.
  intros H.
  specialize (H [UdtMember 0 "head"; UdtMember (2 ^ 35) "far"]
                (UdtMember (2 ^ 35) "far")
                eq_refl ltac:(vm_compute; discriminate) eq_refl).
  vm_compute in H. discriminate H.
Qed.

Lemma OffsetOf_failure_keeps_offset_witness :
  OffsetOf int "Data1" 77 s0 = Some (false, 77, logged s0 [MsgNoUdt "int"])
  /\ OffsetOf EFI_GUID "Data5" 77 s0 =
       Some (false, 77, logged s0 [MsgNoMember "EFI_GUID" "Data5"]).
Proof.
  split.
  - apply (OffsetOf_failure_keeps_offset int "Data1" 77 s0). reflexivity.
  - apply (OffsetOf_failure_keeps_offset EFI_GUID "Data5" 77 s0).
    + eexists; reflexivity.
    + reflexivity.
Defined.


(** The batch as a whole: the variables of the two records that resolve
    and decompile are retyped, once by each retyper, in the order of the
    records; nothing is logged. *)
Example driver_batch :
  snd (applyAllTypesForInterfaces apply_to batch s0) =
  MkSt [] (Db (funcs db0)
             [(0x1000, 0x1020, Ptr (Basic "VOID" BT_VOID));
              (0x1000, 0x1020, Ptr (Basic "VOID" BT_VOID));
              (0x1000, 0x1010, Ptr (Basic "VOID" BT_VOID));
              (0x1000, 0x1010, Ptr (Basic "VOID" BT_VOID))]).
Proof. vm_compute. reflexivity. Qed.

(** The store of the test double rejects a function it does not know. *)
Example SetHexRaysVariableType_samples :
  SetHexRaysVariableType 0x1000 (LVar 3 "Interface") int s0 =
    (true, MkSt [] (Db (funcs db0) [(0x1000, 3, int)]))
  /\ SetHexRaysVariableType 0x1004 (LVar 3 "Interface") int s0 =
       (false, logged s0 [MsgNoLvar 0x1004 "Interface"]).
Proof. vm_compute. split; reflexivity. Qed.

Lemma IsPODArray_is_classifier_witness :
  IsPODArray ptr_array 1 s0 =
    (true, logged s0 [MsgPodCheck 2 "int *" false false;
                      MsgPodCheck 1 "int" true true])
  /\ (1 <= 2 <= 2)%nat.
Proof.
  apply (IsPODArray_is_classifier ptr_array (ArrayTypeData (Ptr int) 10) 1 s0);
    [reflexivity | reflexivity | lia | unfold Machine.INT_MAX; lia].
Defined.

Lemma IsPODArray_checks_at_most_witness :
  (checks_between s0 (snd (IsPODArray ptr2_array 1 s0)) <= 2)%nat.
Proof.
  apply (IsPODArray_checks_at_most ptr2_array 1 s0).
  unfold Machine.UINT_MAX; lia.
Defined.

Lemma IsPODArray_depth_zero_witness :
  IsPODArray int_array 0 s0 = (true, logged s0 [MsgPodCheck 1 "int" true true]).
Proof.
  apply (IsPODArray_depth_zero int_array (ArrayTypeData int 10) s0); reflexivity.
Defined.

Lemma IsPODArray_large_depth_witness :
  fst (IsPODArray int_array 2147483647 s0) = false
  /\ checks_between s0 (snd (IsPODArray int_array 2147483647 s0)) = 0%nat.
Proof.
  apply (IsPODArray_large_depth int_array 2147483647 s0).
  unfold Machine.INT_MAX, Machine.UINT_MAX; lia.
Defined.

Lemma IsPODArray_true_iff_witness :
  fst (IsPODArray ptr_array 1 s0) = true <->
  exists k, (k <= 1)%nat
            /\ primitive_like (strip k (Ptr int)) = true
            /\ forall j, (j < k)%nat -> is_ptr (strip j (Ptr int)) = true.
Proof.
  apply (IsPODArray_true_iff ptr_array (ArrayTypeData (Ptr int) 10) 1 s0);
    [reflexivity | reflexivity | lia | unfold Machine.INT_MAX; lia].
Defined.

Lemma IsPODArray_depth_threshold_witness :
  fst (IsPODArray ptr2_array 2 s0) = true <-> 2 <= 2.
Proof.
  apply (IsPODArray_depth_threshold ptr2_array
           (ArrayTypeData (Ptr (Ptr int)) 10) 2 2 s0);
    [reflexivity | reflexivity | lia | unfold Machine.INT_MAX; lia
    | reflexivity |].
  intros [|[|j]] Hj; [split; reflexivity | split; reflexivity | lia].
Defined.

Lemma IsPODArray_depth_monotone_witness :
  fst (IsPODArray ptr_array 2 s0) = true.
Proof.
  apply (IsPODArray_depth_monotone ptr_array 1 2 s0);
    [lia | unfold Machine.INT_MAX; lia | reflexivity].
Defined.

Lemma IsPODArray_rejects_non_pointer_witness :
  IsPODArray guid_array 2 s0 =
    (false, logged s0 [MsgPodCheck 3 "EFI_GUID" false false]).
Proof.
  apply (IsPODArray_rejects_non_pointer guid_array (ArrayTypeData EFI_GUID 4) 2 s0);
    [reflexivity | reflexivity | lia | unfold Machine.INT_MAX; lia
    | reflexivity | reflexivity].
Defined.

Lemma OffsetOf_only_logs_witness :
  database (logged s0 [MsgNoMember "EFI_GUID" "Data5"]) = database s0
  /\ (false = true -> logged s0 [MsgNoMember "EFI_GUID" "Data5"] = s0)
  /\ (false = false ->
      exists m, logged s0 [MsgNoMember "EFI_GUID" "Data5"] = logged s0 [m]).
Proof.
  apply (OffsetOf_only_logs EFI_GUID "Data5" 77 s0 false 77
           (logged s0 [MsgNoMember "EFI_GUID" "Data5"])).
  reflexivity.
Defined.

Lemma OffsetOf_rounds_down_witness :
  exists off, OffsetOf FLAGS "Mode" 0 s0 = Some (true, off, s0)
              /\ 8 * off <= 13 < 8 * off + 8.
Proof.
  apply (OffsetOf_rounds_down FLAGS "Mode" 0 s0
           [UdtMember 0 "Valid"; UdtMember 13 "Mode"] (UdtMember 13 "Mode"));
    [reflexivity | vm_compute; discriminate | reflexivity | simpl; lia].
Defined.

(** The member of [FLAGS] at bit 13 is reported in byte 1. *)
Example OffsetOf_bit_13 : OffsetOf FLAGS "Mode" 0 s0 = Some (true, 1, s0).
Proof. reflexivity. Qed.

Lemma driver_all_skipped_witness :
  applyAllTypesForInterfaces apply_to
    [ProtocolUse 0x5000 "HandleProtocol"; ProtocolUse 0x2010 "OpenProtocol"] s0
  = (tt, s0).
Proof.
  apply (driver_all_skipped (sdk := sdk) apply_to
           [ProtocolUse 0x5000 "HandleProtocol"; ProtocolUse 0x2010 "OpenProtocol"]
           s0).
  constructor; [left; reflexivity|].
  constructor; [|constructor].
  right. exists (Func 0x2000). split; reflexivity.
Defined.

Lemma driver_ignores_stale_addresses_witness :
  snd (handle_all apply_to batch (driver_retypers batch) s0) =
  snd (handle_all apply_to batch
         (SetProtocols (SetCodeEa (GUIDRetyper_new mBs) 0x2010) batch,
          SetFuncEa (SetProtocols (GUIDRetyper_new mSmm) batch) 0x2000) s0).
Proof.
  apply (driver_ignores_stale_addresses (sdk := sdk) apply_to batch
           (driver_retypers batch)
           (SetProtocols (SetCodeEa (GUIDRetyper_new mBs) 0x2010) batch,
            SetFuncEa (SetProtocols (GUIDRetyper_new mSmm) batch) 0x2000) s0).
  repeat split.
Defined.

(** Of the batch, the first and the last record are processed. *)
Example processed_batch :
  processed apply_to batch (driver_retypers batch) s0 =
  [ProtocolUse 0x1010 "LocateProtocol"; ProtocolUse 0x1020 "LocateProtocol"].
Proof. vm_compute. reflexivity. Qed.

End Concrete.
